(** * Chess pieces: ChessPiece, Rook and Pawn

    A shallow embedding of [ChessPiece.cpp], [Rook.cpp] and [Pawn.cpp].

    - A C++ [int] is a [Z].  The only arithmetic the classes perform on stored
      values is [BOARD_LENGTH - 1] and the column difference inside
      [Rook::canCastle]; lemma [stored_coordinates_bounded] below shows that
      stored coordinates stay in [[-1, BOARD_LENGTH)], so neither leaves the
      range of [int].
    - A [std::string] is a [string], a [char] an [ascii].
    - [<cctype>] is read in the "C" locale (the program never changes it).
    - A member function that may write to its object returns the new object;
      a [const] member function is a plain function of the object.
    - [std::cout] is the text written so far.
    - [ChessPiece::BOARD_LENGTH] is declared in [ChessPiece.hpp]; the
      development is parametric in it. *)

From Stdlib Require Import ZArith Bool List String Ascii Lia DecimalString.
Import ListNotations.
Local Open Scope string_scope.
Local Open Scope Z_scope.

(** ** <cctype>, "C" locale

    The letters are the 52 of ASCII; no character above 127 is one. *)

Module CType.

Definition isupper (c : ascii) : bool :=
  let n := N_of_ascii c in (65 <=? n)%N && (n <=? 90)%N.

Definition islower (c : ascii) : bool :=
  let n := N_of_ascii c in (97 <=? n)%N && (n <=? 122)%N.

Definition isalpha (c : ascii) : bool := isupper c || islower c.

Definition toupper (c : ascii) : ascii :=
  if islower c then ascii_of_N (N_of_ascii c - 32) else c.

End CType.

(** ** <ostream> *)

Module OStream.

(** Everything written to the stream so far. *)
Definition ostream := string.

Definition put_string (s : string) (os : ostream) : ostream := (os ++ s)%string.

(** The decimal digits of an [int], with a leading minus sign for a
    negative value. *)
Definition decimal (z : Z) : string := NilZero.string_of_int (Z.to_int z).

(** [operator<<(int)] *)
Definition put_int (z : Z) (os : ostream) : ostream :=
  (os ++ decimal z)%string.

Definition newline_char : ascii := ascii_of_nat 10.

Definition newline : string := String newline_char EmptyString.

Definition endl (os : ostream) : ostream := (os ++ newline)%string.

End OStream.

(** ** ChessPiece *)

Record ChessPiece : Type := mkChessPiece
  { color_ : string;
    row_ : Z;
    column_ : Z;
    movingUp_ : bool }.

Definition set_color_ (v : string) (p : ChessPiece) : ChessPiece :=
  mkChessPiece v (row_ p) (column_ p) (movingUp_ p).

Definition set_row_ (v : Z) (p : ChessPiece) : ChessPiece :=
  mkChessPiece (color_ p) v (column_ p) (movingUp_ p).

Definition set_column_ (v : Z) (p : ChessPiece) : ChessPiece :=
  mkChessPiece (color_ p) (row_ p) v (movingUp_ p).

Definition set_movingUp_ (v : bool) (p : ChessPiece) : ChessPiece :=
  mkChessPiece (color_ p) (row_ p) (column_ p) v.

(** [for (char c : color)
      if (!std::isalpha(c)) { isAlphabetic = false; break; }] *)
Fixpoint isAlphabetic (color : string) : bool :=
  match color with
  | EmptyString => true
  | String c rest => if negb (CType.isalpha c) then false else isAlphabetic rest
  end.

(** [for (char& c : color_) c = std::toupper(c);] *)
Fixpoint toupper_each (color : string) : string :=
  match color with
  | EmptyString => EmptyString
  | String c rest => String (CType.toupper c) (toupper_each rest)
  end.

(** [ChessPiece::ChessPiece()] *)
Definition ChessPiece_default : ChessPiece :=
  {| color_ := "BLACK"; row_ := -1; column_ := -1; movingUp_ := false |}.

Definition getColor (p : ChessPiece) : string := color_ p.
Definition getRow (p : ChessPiece) : Z := row_ p.
Definition getColumn (p : ChessPiece) : Z := column_ p.
Definition isMovingUp (p : ChessPiece) : bool := movingUp_ p.

(** [ChessPiece::setColor]: the result and the piece afterwards. *)
Definition setColor (color : string) (p : ChessPiece) : bool * ChessPiece :=
  if isAlphabetic color
  then (true, set_color_ (toupper_each color) p)
  else (false, p).

Definition setMovingUp (movingUp : bool) (p : ChessPiece) : ChessPiece :=
  set_movingUp_ movingUp p.

(** [ChessPiece::display], writing to [std::cout]. *)
Definition display (p : ChessPiece) (cout : OStream.ostream)
  : ChessPiece * OStream.ostream :=
  if negb (row_ p =? -1) && negb (column_ p =? -1)
  then (p, OStream.endl
             (OStream.put_string (if movingUp_ p then "UP" else "DOWN")
             (OStream.put_string ") is moving "
             (OStream.put_int (column_ p)
             (OStream.put_string ","
             (OStream.put_int (row_ p)
             (OStream.put_string " piece at ("
             (OStream.put_string (color_ p) cout))))))))
  else (p, OStream.endl
             (OStream.put_string " piece is not on the board"
             (OStream.put_string (color_ p) cout))).

Section Board.

(** [ChessPiece::BOARD_LENGTH] *)
Variable BOARD_LENGTH : Z.

(** [ChessPiece::ChessPiece(color, row, column, movingUp)] *)
Definition ChessPiece_new (color : string) (row column : Z) (movingUp : bool)
  : ChessPiece :=
  let color' := if isAlphabetic color then toupper_each color else "BLACK" in
  if (row >=? 0) && (row <? BOARD_LENGTH)
     && (column >=? 0) && (column <? BOARD_LENGTH)
  then mkChessPiece color' row column movingUp
  else mkChessPiece color' (-1) (-1) movingUp.

Definition setRow (row : Z) (p : ChessPiece) : ChessPiece :=
  if (row >=? 0) && (row <? BOARD_LENGTH)
  then set_row_ row p
  else set_column_ (-1) (set_row_ (-1) p).

Definition setColumn (column : Z) (p : ChessPiece) : ChessPiece :=
  if (column >=? 0) && (column <? BOARD_LENGTH)
  then set_column_ column p
  else set_column_ (-1) (set_row_ (-1) p).

End Board.

(** Whether a character occurs in a string. *)
Fixpoint occurs (c : ascii) (s : string) : bool :=
  match s with
  | EmptyString => false
  | String a rest => Ascii.eqb a c || occurs c rest
  end.

(** ** Derived classes *)

(** A class deriving from [ChessPiece]: its base sub-object can be read
    ([const ChessPiece&]) and replaced (a call of an inherited setter). *)
Class Derived (T : Type) : Type :=
  { upcast : T -> ChessPiece;
    with_base : ChessPiece -> T -> T }.

(** Calling an inherited member function that writes to the base. *)
Definition inherited {T : Type} `{Derived T}
  (f : ChessPiece -> ChessPiece) (x : T) : T :=
  with_base (f (upcast x)) x.

#[export] Instance ChessPiece_Derived : Derived ChessPiece :=
  {| upcast := fun p => p; with_base := fun b _ => b |}.

(** *** Rook *)

Record Rook : Type := mkRook
  { rook_base : ChessPiece;
    castle_moves_left_ : Z }.

#[export] Instance Rook_Derived : Derived Rook :=
  {| upcast := rook_base;
     with_base := fun b r => mkRook b (castle_moves_left_ r) |}.

(** [Rook::Rook()] *)
Definition Rook_default : Rook := mkRook ChessPiece_default 3.

(** [Rook::Rook(color, row, col, movingUp, castleMoves)] *)
Definition Rook_new (BOARD_LENGTH : Z)
  (color : string) (row col : Z) (movingUp : bool) (castleMoves : Z) : Rook :=
  mkRook (ChessPiece_new BOARD_LENGTH color row col movingUp)
         (Z.max 0 castleMoves).

Definition getCastleMovesLeft (r : Rook) : Z := castle_moves_left_ r.

(** [Rook::canCastle(const ChessPiece&) const] *)
Definition canCastle (this : Rook) (piece : ChessPiece) : bool :=
  if castle_moves_left_ this <=? 0 then false
  else if negb (getColor (upcast this) =? getColor piece)%string then false
  else if (getRow (upcast this) =? -1) || (getColumn (upcast this) =? -1)
          || (getRow piece =? -1) || (getColumn piece =? -1) then false
  else if negb (getRow (upcast this) =? getRow piece) then false
  else if Z.abs (getColumn (upcast this) - getColumn piece) >? 1 then false
  else true.

(** A call [R.canCastle(P)] as the caller sees it: the result, and the two
    objects after the call.  The member function is [const] and takes a
    [const&], so it has no way to write to either. *)
Definition canCastle_call (R : Rook) (P : ChessPiece)
  : bool * Rook * ChessPiece :=
  (canCastle R P, R, P).

(** *** Pawn *)

Record Pawn : Type := mkPawn
  { pawn_base : ChessPiece;
    double_jumpable_ : bool }.

#[export] Instance Pawn_Derived : Derived Pawn :=
  {| upcast := pawn_base;
     with_base := fun b p => mkPawn b (double_jumpable_ p) |}.

(** [Pawn::Pawn()] *)
Definition Pawn_default : Pawn := mkPawn ChessPiece_default false.

(** [Pawn::Pawn(color, row, column, movingUp, doubleJumpable)] *)
Definition Pawn_new (BOARD_LENGTH : Z)
  (color : string) (row column : Z) (movingUp doubleJumpable : bool) : Pawn :=
  mkPawn (ChessPiece_new BOARD_LENGTH color row column movingUp) doubleJumpable.

Definition canDoubleJump (p : Pawn) : bool := double_jumpable_ p.

Definition toggleDoubleJump (p : Pawn) : Pawn :=
  mkPawn (pawn_base p) (negb (double_jumpable_ p)).

(** [Pawn::canPromote() const] *)
Definition canPromote (BOARD_LENGTH : Z) (p : Pawn) : bool :=
  (isMovingUp (upcast p) && (getRow (upcast p) =? BOARD_LENGTH - 1))
  || (negb (isMovingUp (upcast p)) && (getRow (upcast p) =? 0)).

(** ** Sequences of setter calls

    A pawn has every setter the claims speak of: the four it inherits from
    [ChessPiece] and its own [toggleDoubleJump]. *)

Inductive Setter : Type :=
| SetColor (color : string)
| SetRow (row : Z)
| SetColumn (column : Z)
| SetMovingUp (movingUp : bool)
| ToggleDoubleJump.

(** The invariant I1 of the data model, [(row == -1) == (column == -1)]. *)
Definition I1 (p : ChessPiece) : bool :=
  Bool.eqb (row_ p =? -1) (column_ p =? -1).

Section Calls.

Variable BOARD_LENGTH : Z.

(** One call on a pawn; the value [setColor] returns is dropped. *)
Definition call (op : Setter) (p : Pawn) : Pawn :=
  match op with
  | SetColor color => inherited (fun b => snd (setColor color b)) p
  | SetRow row => inherited (setRow BOARD_LENGTH row) p
  | SetColumn column => inherited (setColumn BOARD_LENGTH column) p
  | SetMovingUp movingUp => inherited (setMovingUp movingUp) p
  | ToggleDoubleJump => toggleDoubleJump p
  end.

(** The pawn as it is after each call of a sequence, in order. *)
Fixpoint trace (ops : list Setter) (p : Pawn) : list Pawn :=
  match ops with
  | [] => []
  | op :: rest => call op p :: trace rest (call op p)
  end.

(** The pawn after the whole sequence. *)
Definition run (ops : list Setter) (p : Pawn) : Pawn :=
  fold_left (fun q op => call op q) ops p.

(** A call that stores one in-range coordinate while the other one is -1. *)
Definition places_half (op : Setter) (p : Pawn) : bool :=
  match op with
  | SetRow row =>
      (0 <=? row) && (row <? BOARD_LENGTH) && (column_ (upcast p) =? -1)
  | SetColumn column =>
      (0 <=? column) && (column <? BOARD_LENGTH) && (row_ (upcast p) =? -1)
  | _ => false
  end.

Fixpoint never_places_half (ops : list Setter) (p : Pawn) : bool :=
  match ops with
  | [] => true
  | op :: rest => negb (places_half op p) && never_places_half rest (call op p)
  end.

(** What the two [ChessPiece] constructors can build. *)
Inductive Constructed : ChessPiece -> Prop :=
| by_default : Constructed ChessPiece_default
| by_arguments color row column movingUp :
    Constructed (ChessPiece_new BOARD_LENGTH color row column movingUp).

(** A stored coordinate is the sentinel or an index of the board. *)
Definition coordinate_ok (z : Z) : Prop := z = -1 \/ 0 <= z < BOARD_LENGTH.

Definition coordinates_ok (p : ChessPiece) : Prop :=
  coordinate_ok (row_ p) /\ coordinate_ok (column_ p).

End Calls.

(** ** Setter calls on a rook

    A rook has the four setters it inherits and none of its own. *)

Inductive BaseSetter : Type :=
| BSetColor (color : string)
| BSetRow (row : Z)
| BSetColumn (column : Z)
| BSetMovingUp (movingUp : bool).

Definition rook_call (BOARD_LENGTH : Z) (op : BaseSetter) (r : Rook) : Rook :=
  match op with
  | BSetColor color => inherited (fun b => snd (setColor color b)) r
  | BSetRow row => inherited (setRow BOARD_LENGTH row) r
  | BSetColumn column => inherited (setColumn BOARD_LENGTH column) r
  | BSetMovingUp movingUp => inherited (setMovingUp movingUp) r
  end.

Definition rook_run (BOARD_LENGTH : Z) (ops : list BaseSetter) (r : Rook)
  : Rook :=
  fold_left (fun q op => rook_call BOARD_LENGTH op q) ops r.

(** ** Construction by setters

    Default construction followed by one call of each setter, in the order
    of the parameters of the parameterized constructor. *)
Definition built_by_setters (BOARD_LENGTH : Z)
  (color : string) (row column : Z) (movingUp : bool) : ChessPiece :=
  setMovingUp movingUp
    (setColumn BOARD_LENGTH column
       (setRow BOARD_LENGTH row
          (snd (setColor color ChessPiece_default)))).

(** A string of upper-case letters. *)
Definition upper_case (s : string) : Prop :=
  forall c, In c (list_ascii_of_string s) -> CType.isupper c = true.

(** How many calls of a sequence are [toggleDoubleJump]. *)
Fixpoint toggles (ops : list Setter) : nat :=
  match ops with
  | [] => O
  | ToggleDoubleJump :: rest => S (toggles rest)
  | _ :: rest => toggles rest
  end.

(** * Properties *)

(** ** Colour validation *)

Lemma isAlphabetic_iff (s : string) :
  isAlphabetic s = true <->
  (forall c, In c (list_ascii_of_string s) -> CType.isalpha c = true).
Proof.
  induction s as [|a s IH]; simpl.
  - split; [intros _ c [] | reflexivity].
  - destruct (CType.isalpha a) eqn:Ha; simpl.
    + rewrite IH. split.
      * intros H c [<-|Hc]; auto.
      * intros H c Hc. apply H. now right.
    + split; [discriminate|].
      intros H. rewrite (H a) in Ha by now left. discriminate.
Qed.

Lemma toupper_each_map (s : string) :
  toupper_each s =
  string_of_list_ascii (map CType.toupper (list_ascii_of_string s)).
Proof.
  induction s as [|a s IH]; simpl; [reflexivity | now rewrite IH].
Qed.

Example setColor_abc (p : ChessPiece) :
  setColor "abc" p = (true, set_color_ "ABC" p).
Proof. reflexivity. Qed.

Example setColor_a1b (p : ChessPiece) : setColor "a1b" p = (false, p).
Proof. reflexivity. Qed.

(** C5: [setColor] answers [true] and stores the upper-cased input when every
    character of the input is alphabetic (nothing else changes); otherwise it
    answers [false] and the piece is what it was. *)
Theorem setColor_spec (p : ChessPiece) (color : string) :
  ((forall c, In c (list_ascii_of_string color) -> CType.isalpha c = true) ->
   setColor color p =
   (true,
    mkChessPiece
      (string_of_list_ascii (map CType.toupper (list_ascii_of_string color)))
      (row_ p) (column_ p) (movingUp_ p)))
  /\
  (~ (forall c, In c (list_ascii_of_string color) -> CType.isalpha c = true) ->
   setColor color p = (false, p)).
Proof.
  unfold setColor. split; intros H.
  - apply isAlphabetic_iff in H. rewrite H, toupper_each_map. reflexivity.
  - destruct (isAlphabetic color) eqn:E; [|reflexivity].
    exfalso. apply H, isAlphabetic_iff, E.
Qed.

(** C10: the empty string passes the alphabetic check: the constructor
    stores the colour "" (not "BLACK"), and [setColor("")] answers [true] and
    makes the stored colour empty. *)
Theorem empty_color_accepted
  (BOARD_LENGTH : Z) (row column : Z) (movingUp : bool) (p : ChessPiece) :
  getColor (ChessPiece_new BOARD_LENGTH "" row column movingUp) = ""
  /\ getColor (ChessPiece_new BOARD_LENGTH "" row column movingUp) <> "BLACK"
  /\ fst (setColor "" p) = true
  /\ getColor (snd (setColor "" p)) = "".
Proof.
  unfold ChessPiece_new; simpl.
  destruct ((row >=? 0) && (row <? BOARD_LENGTH)
            && (column >=? 0) && (column <? BOARD_LENGTH));
    simpl; repeat split; discriminate.
Qed.

(** ** Position validation *)

Lemma in_range_reflect (lim z : Z) :
  (z >=? 0) && (z <? lim) = true <-> 0 <= z < lim.
Proof. rewrite andb_true_iff, Z.geb_le, Z.ltb_lt. reflexivity. Qed.

Lemma in_range_true (lim z : Z) :
  0 <= z < lim -> (z >=? 0) && (z <? lim) = true.
Proof. apply in_range_reflect. Qed.

Lemma in_range_false (lim z : Z) :
  ~ 0 <= z < lim -> (z >=? 0) && (z <? lim) = false.
Proof.
  intros H. apply not_true_is_false. now rewrite in_range_reflect.
Qed.

(** C4: [setRow] with an argument in [[0, BOARD_LENGTH)] writes the row and
    nothing else; with any other argument it sets row and column to -1.
    [setColumn] is the same with the roles of row and column exchanged. *)
Theorem setRow_setColumn_spec (BOARD_LENGTH : Z) (p : ChessPiece) (v : Z) :
  (0 <= v < BOARD_LENGTH ->
   setRow BOARD_LENGTH v p
     = mkChessPiece (color_ p) v (column_ p) (movingUp_ p)
   /\ setColumn BOARD_LENGTH v p
     = mkChessPiece (color_ p) (row_ p) v (movingUp_ p))
  /\
  (~ 0 <= v < BOARD_LENGTH ->
   setRow BOARD_LENGTH v p
     = mkChessPiece (color_ p) (-1) (-1) (movingUp_ p)
   /\ setColumn BOARD_LENGTH v p
     = mkChessPiece (color_ p) (-1) (-1) (movingUp_ p)).
Proof.
  unfold setRow, setColumn. split; intros H.
  - rewrite (in_range_true _ _ H). split; reflexivity.
  - rewrite (in_range_false _ _ H). split; reflexivity.
Qed.

(** C6: the parameterized constructor stores row and column as given when
    both lie in [[0, BOARD_LENGTH)], stores -1 for both as soon as one of
    them does not, and stores [movingUp] as given; the constructors of
    [Rook] and [Pawn] build their base with it. *)
Theorem ChessPiece_new_position
  (BOARD_LENGTH : Z) (color : string) (row column : Z) (movingUp : bool) :
  let p := ChessPiece_new BOARD_LENGTH color row column movingUp in
  (0 <= row < BOARD_LENGTH /\ 0 <= column < BOARD_LENGTH ->
   getRow p = row /\ getColumn p = column)
  /\ (~ 0 <= row < BOARD_LENGTH \/ ~ 0 <= column < BOARD_LENGTH ->
      getRow p = -1 /\ getColumn p = -1)
  /\ isMovingUp p = movingUp
  /\ (forall castleMoves,
        upcast (Rook_new BOARD_LENGTH color row column movingUp castleMoves)
        = p)
  /\ (forall doubleJumpable,
        upcast (Pawn_new BOARD_LENGTH color row column movingUp
                  doubleJumpable) = p).
Proof.
  unfold ChessPiece_new, Rook_new, Pawn_new, ChessPiece_new, getRow, getColumn,
    isMovingUp.
  cbv zeta. rewrite !Z.geb_leb.
  destruct (Z.leb_spec 0 row), (Z.ltb_spec row BOARD_LENGTH),
    (Z.leb_spec 0 column), (Z.ltb_spec column BOARD_LENGTH);
    simpl; repeat split; intros; try reflexivity; exfalso; lia.
Qed.

(** ** Rook *)

Example Rook_minus_five (BOARD_LENGTH : Z) :
  getCastleMovesLeft (Rook_new BOARD_LENGTH "white" 0 0 false (-5)) = 0.
Proof. reflexivity. Qed.

(** C7: a rook constructed with castle-moves argument [n] reports
    [max(0, n)] castle moves left, hence 0 for every negative [n]; a
    default-constructed rook reports 3. *)
Theorem getCastleMovesLeft_constructed
  (BOARD_LENGTH : Z) (color : string) (row col : Z) (movingUp : bool) (n : Z) :
  getCastleMovesLeft (Rook_new BOARD_LENGTH color row col movingUp n)
    = Z.max 0 n
  /\ (n < 0 ->
      getCastleMovesLeft (Rook_new BOARD_LENGTH color row col movingUp n) = 0)
  /\ getCastleMovesLeft Rook_default = 3.
Proof.
  unfold getCastleMovesLeft, Rook_new; simpl.
  repeat split. intros Hn. lia.
Qed.

(** One of the early [return false] branches was taken: the answer is not
    [true], and the conditions cannot all hold. *)
Ltac failed_check :=
  split;
  [intros; discriminate
  | intros; exfalso; intuition (try lia; try congruence)].

(** The conditions of [Rook::canCastle], as the contract lists them. *)
Lemma canCastle_true_iff (R : Rook) (P : ChessPiece) :
  canCastle R P = true <->
  castle_moves_left_ R > 0
  /\ color_ (upcast R) = color_ P
  /\ (row_ (upcast R) <> -1 /\ column_ (upcast R) <> -1
      /\ row_ P <> -1 /\ column_ P <> -1)
  /\ row_ (upcast R) = row_ P
  /\ Z.abs (column_ (upcast R) - column_ P) <= 1.
Proof.
  unfold canCastle, getColor, getRow, getColumn.
  change (upcast R) with (rook_base R).
  destruct (Z.leb_spec (castle_moves_left_ R) 0) as [Hm|Hm];
    [failed_check|].
  destruct (String.eqb_spec (color_ (rook_base R)) (color_ P)) as [Hc|Hc];
    simpl; [|failed_check].
  destruct (Z.eqb_spec (row_ (rook_base R)) (-1)) as [H1|H1]; simpl;
    [failed_check|].
  destruct (Z.eqb_spec (column_ (rook_base R)) (-1)) as [H2|H2]; simpl;
    [failed_check|].
  destruct (Z.eqb_spec (row_ P) (-1)) as [H3|H3]; simpl; [failed_check|].
  destruct (Z.eqb_spec (column_ P) (-1)) as [H4|H4]; simpl; [failed_check|].
  destruct (Z.eqb_spec (row_ (rook_base R)) (row_ P)) as [H5|H5]; simpl;
    [|failed_check].
  rewrite Z.gtb_ltb.
  destruct (Z.ltb_spec 1 (Z.abs (column_ (rook_base R) - column_ P)))
    as [H6|H6]; [failed_check|].
  split; [intros _ | reflexivity]. repeat split; try assumption; lia.
Qed.

(** C2: [R.canCastle(P)] is true exactly when [R] has castle moves left,
    both pieces have the same colour, none of the four coordinates is -1,
    the rows are equal and the columns differ by at most 1; after the call
    [R] and [P] are what they were, so the number of castle moves left is
    what it was. *)
Theorem canCastle_spec (R : Rook) (P : ChessPiece) :
  let '(result, R', P') := canCastle_call R P in
  (result = true <->
   getCastleMovesLeft R > 0
   /\ getColor (upcast R) = getColor P
   /\ (getRow (upcast R) <> -1 /\ getColumn (upcast R) <> -1
       /\ getRow P <> -1 /\ getColumn P <> -1)
   /\ getRow (upcast R) = getRow P
   /\ Z.abs (getColumn (upcast R) - getColumn P) <= 1)
  /\ R' = R /\ P' = P
  /\ getCastleMovesLeft R' = getCastleMovesLeft R.
Proof.
  unfold canCastle_call. split; [apply canCastle_true_iff | auto].
Qed.

Example rooks_3_4_and_3_5 :
  let R := Rook_new 8 "white" 3 4 true 3 in
  let P := Rook_new 8 "WHITE" 3 5 false 0 in
  canCastle R (upcast P) = true
  /\ canCastle R (upcast (inherited (setColumn 8 6) P)) = false
  /\ canCastle R (upcast (inherited (setRow 8 (-1)) P)) = false
  /\ canCastle (inherited (setColumn 8 8) R) (upcast P) = false.
Proof. repeat split. Qed.

(** C8: a rook that is on the board and has castle moves left can castle
    with itself. *)
Theorem canCastle_self (R : Rook) :
  getRow (upcast R) <> -1 -> getColumn (upcast R) <> -1 ->
  getCastleMovesLeft R > 0 ->
  canCastle R (upcast R) = true.
Proof.
  intros Hr Hc Hm. apply canCastle_true_iff.
  unfold getRow, getColumn, getCastleMovesLeft in *.
  rewrite Z.sub_diag. simpl. repeat split; auto; lia.
Qed.

(** ** Pawn *)

(** C3: [canPromote] is true exactly when the pawn moves up and stands on
    row [BOARD_LENGTH - 1], or moves down and stands on row 0; on a board
    of positive length a pawn whose row is -1 cannot promote, whatever its
    direction. *)
Theorem canPromote_spec (BOARD_LENGTH : Z) (p : Pawn) :
  0 < BOARD_LENGTH ->
  (canPromote BOARD_LENGTH p = true <->
   (isMovingUp (upcast p) = true /\ getRow (upcast p) = BOARD_LENGTH - 1)
   \/ (isMovingUp (upcast p) = false /\ getRow (upcast p) = 0))
  /\ (getRow (upcast p) = -1 -> canPromote BOARD_LENGTH p = false).
Proof.
  intros HBL. unfold canPromote.
  assert (Hiff :
    (isMovingUp (upcast p) && (getRow (upcast p) =? BOARD_LENGTH - 1))
    || (negb (isMovingUp (upcast p)) && (getRow (upcast p) =? 0)) = true <->
    (isMovingUp (upcast p) = true /\ getRow (upcast p) = BOARD_LENGTH - 1)
    \/ (isMovingUp (upcast p) = false /\ getRow (upcast p) = 0)).
  { rewrite orb_true_iff, !andb_true_iff, negb_true_iff, !Z.eqb_eq.
    reflexivity. }
  split; [exact Hiff|].
  intros Hoff. apply not_true_is_false. rewrite Hiff. lia.
Qed.

Example pawn_promotion_rows :
  canPromote 8 (Pawn_new 8 "white" 7 0 true false) = true
  /\ canPromote 8 (Pawn_new 8 "white" 6 0 true false) = false
  /\ canPromote 8 (Pawn_new 8 "white" (-1) 0 true false) = false
  /\ canPromote 8 (Pawn_new 8 "white" (-1) 0 false false) = false.
Proof. repeat split. Qed.

(** ** Display *)

Lemma append_assoc (a b c : string) : ((a ++ b) ++ c = a ++ (b ++ c))%string.
Proof. induction a as [|x a IH]; simpl; [reflexivity | now rewrite IH]. Qed.

Lemma occurs_append (c : ascii) (a b : string) :
  occurs c (a ++ b) = occurs c a || occurs c b.
Proof.
  induction a as [|x a IH]; simpl; [reflexivity|].
  now rewrite IH, orb_assoc.
Qed.

Lemma digits_no_newline (d : Decimal.uint) :
  occurs OStream.newline_char (NilEmpty.string_of_uint d) = false.
Proof. induction d; simpl; auto. Qed.

Lemma decimal_no_newline (z : Z) :
  occurs OStream.newline_char (OStream.decimal z) = false.
Proof.
  unfold OStream.decimal.
  destruct (Z.to_int z) as [d|d]; simpl;
    destruct d; simpl; auto using digits_no_newline.
Qed.

Example display_on_board :
  display (mkChessPiece "BLACK" 2 4 true) ""
  = (mkChessPiece "BLACK" 2 4 true,
     ("BLACK piece at (2,4) is moving UP" ++ OStream.newline)%string).
Proof. reflexivity. Qed.

Example display_off_board :
  snd (display (mkChessPiece "WHITE" (-1) (-1) false) "")
  = ("WHITE piece is not on the board" ++ OStream.newline)%string.
Proof. reflexivity. Qed.

(** C9: [display] leaves the piece as it is and appends to the output one
    line and the end-of-line.  For a piece with [row != -1] and
    [column != -1] the line is "<COLOR> piece at (<row>,<column>) is moving
    UP" or "... DOWN" after [movingUp]; for any other piece, an off-board
    one among them, it is "<COLOR> piece is not on the board".  The line has
    no end-of-line of its own unless the colour has one. *)
Theorem display_spec (p : ChessPiece) (cout : OStream.ostream) :
  exists line : string,
    display p cout = (p, (cout ++ line ++ OStream.newline)%string)
    /\ (row_ p <> -1 /\ column_ p <> -1 ->
        line = (color_ p ++ " piece at (" ++ OStream.decimal (row_ p) ++ ","
                ++ OStream.decimal (column_ p) ++ ") is moving "
                ++ (if movingUp_ p then "UP" else "DOWN"))%string)
    /\ (row_ p = -1 \/ column_ p = -1 ->
        line = (color_ p ++ " piece is not on the board")%string)
    /\ (occurs OStream.newline_char (color_ p) = false ->
        occurs OStream.newline_char line = false).
Proof.
  unfold display, OStream.endl, OStream.put_string, OStream.put_int.
  destruct (Z.eqb_spec (row_ p) (-1)) as [Hr|Hr];
    [|destruct (Z.eqb_spec (column_ p) (-1)) as [Hc|Hc]]; simpl.
  1,2: exists (color_ p ++ " piece is not on the board")%string;
       (split; [now rewrite !append_assoc|]);
       (split; [intros [? ?]; contradiction|]);
       (split; [reflexivity|]);
       intros Hn; rewrite occurs_append, Hn; reflexivity.
  exists (color_ p ++ " piece at (" ++ OStream.decimal (row_ p) ++ ","
          ++ OStream.decimal (column_ p) ++ ") is moving "
          ++ (if movingUp_ p then "UP" else "DOWN"))%string.
  split; [now rewrite !append_assoc|].
  split; [reflexivity|].
  split; [intros [?|?]; contradiction|].
  intros Hn. rewrite !occurs_append, Hn, !decimal_no_newline.
  destruct (movingUp_ p); reflexivity.
Qed.

(** ** The invariant I1 along setter calls *)

Lemma I1_constructed (BOARD_LENGTH : Z) (p : ChessPiece) :
  Constructed BOARD_LENGTH p -> I1 p = true.
Proof.
  intros H. inversion H as [|color row column movingUp]; [reflexivity|].
  unfold ChessPiece_new. rewrite <- !andb_assoc.
  destruct (Z.geb_spec row 0); simpl; [|reflexivity].
  destruct (row <? BOARD_LENGTH); simpl; [|reflexivity].
  destruct (Z.geb_spec column 0); simpl; [|reflexivity].
  destruct (column <? BOARD_LENGTH); simpl; [|reflexivity].
  unfold I1; simpl.
  destruct (Z.eqb_spec row (-1)), (Z.eqb_spec column (-1)); simpl; lia.
Qed.

(** The constructors of the derived classes build a constructed base. *)
Lemma derived_constructed (BOARD_LENGTH : Z) :
  Constructed BOARD_LENGTH (upcast Rook_default)
  /\ Constructed BOARD_LENGTH (upcast Pawn_default)
  /\ (forall color row col movingUp castleMoves,
        Constructed BOARD_LENGTH
          (upcast (Rook_new BOARD_LENGTH color row col movingUp castleMoves)))
  /\ (forall color row column movingUp doubleJumpable,
        Constructed BOARD_LENGTH
          (upcast (Pawn_new BOARD_LENGTH color row column movingUp
                     doubleJumpable))).
Proof. repeat split; intros; simpl; constructor. Qed.

(** [setRow] leaves a piece satisfying I1 exactly when its argument is out
    of range or the stored column is not the sentinel. *)
Lemma I1_setRow (BOARD_LENGTH : Z) (v : Z) (p : ChessPiece) :
  I1 (setRow BOARD_LENGTH v p) = true <->
  ~ 0 <= v < BOARD_LENGTH \/ column_ p <> -1.
Proof.
  unfold setRow, I1.
  destruct ((v >=? 0) && (v <? BOARD_LENGTH)) eqn:E; simpl.
  - apply in_range_reflect in E.
    destruct (Z.eqb_spec v (-1)); [lia|].
    destruct (Z.eqb_spec (column_ p) (-1)); simpl;
      (split; [intros; try discriminate; tauto | intros [?|?]; tauto]).
  - split; [intros _; left | reflexivity].
    rewrite <- in_range_reflect, E. discriminate.
Qed.

Lemma I1_setColumn (BOARD_LENGTH : Z) (v : Z) (p : ChessPiece) :
  I1 (setColumn BOARD_LENGTH v p) = true <->
  ~ 0 <= v < BOARD_LENGTH \/ row_ p <> -1.
Proof.
  unfold setColumn, I1.
  destruct ((v >=? 0) && (v <? BOARD_LENGTH)) eqn:E; simpl.
  - apply in_range_reflect in E.
    destruct (Z.eqb_spec v (-1)); [lia|].
    destruct (Z.eqb_spec (row_ p) (-1)); simpl;
      (split; [intros; try discriminate; tauto | intros [?|?]; tauto]).
  - split; [intros _; left | reflexivity].
    rewrite <- in_range_reflect, E. discriminate.
Qed.

(** One call keeps I1 exactly when it does not place half a position. *)
Lemma I1_call (BOARD_LENGTH : Z) (op : Setter) (p : Pawn) :
  I1 (upcast p) = true ->
  (I1 (upcast (call BOARD_LENGTH op p)) = true <->
   places_half BOARD_LENGTH op p = false).
Proof.
  intros Hp. destruct op as [color|row|column|movingUp|]; simpl.
  - unfold setColor. destruct (isAlphabetic color); simpl; tauto.
  - rewrite I1_setRow.
    destruct (Z.leb_spec 0 row), (Z.ltb_spec row BOARD_LENGTH),
      (Z.eqb_spec (column_ (pawn_base p)) (-1)); simpl;
      intuition (try lia; try discriminate).
  - rewrite I1_setColumn.
    destruct (Z.leb_spec 0 column), (Z.ltb_spec column BOARD_LENGTH),
      (Z.eqb_spec (row_ (pawn_base p)) (-1)); simpl;
      intuition (try lia; try discriminate).
  - tauto.
  - tauto.
Qed.

Lemma I1_trace (BOARD_LENGTH : Z) (ops : list Setter) :
  forall p : Pawn,
    I1 (upcast p) = true ->
    (Forall (fun q => I1 (upcast q) = true) (trace BOARD_LENGTH ops p) <->
     never_places_half BOARD_LENGTH ops p = true).
Proof.
  induction ops as [|op ops IH]; intros p Hp; simpl.
  - split; [reflexivity | constructor].
  - rewrite andb_true_iff, negb_true_iff, <- (I1_call _ _ _ Hp).
    split.
    + intros H. inversion H as [|q l Hq Hl]; subst.
      split; [assumption | now apply IH].
    + intros [Hq Hl]. constructor; [assumption | now apply IH].
Qed.

(** C1, as the code has it: a constructed piece satisfies I1, and along a
    sequence of setter calls I1 holds after every call exactly when no call
    of the sequence is a [setRow] or [setColumn] that stores an in-range
    coordinate while the other coordinate is -1.  [setRow] (or [setColumn])
    yields a piece satisfying I1, whatever the piece was, exactly when its
    argument is out of range or the stored column (or row) is not -1. *)
Theorem I1_along_setter_calls
  (BOARD_LENGTH : Z) (p0 : Pawn) (ops : list Setter) :
  Constructed BOARD_LENGTH (upcast p0) ->
  I1 (upcast p0) = true
  /\ (Forall (fun p => I1 (upcast p) = true) (trace BOARD_LENGTH ops p0) <->
      never_places_half BOARD_LENGTH ops p0 = true)
  /\ (forall (v : Z) (p : ChessPiece),
        (I1 (setRow BOARD_LENGTH v p) = true <->
         ~ 0 <= v < BOARD_LENGTH \/ column_ p <> -1)
        /\ (I1 (setColumn BOARD_LENGTH v p) = true <->
            ~ 0 <= v < BOARD_LENGTH \/ row_ p <> -1)).
Proof.
  intros Hc. pose proof (I1_constructed _ _ Hc) as H0.
  split; [exact H0|].
  split; [now apply I1_trace|].
  intros v p. split; [apply I1_setRow | apply I1_setColumn].
Qed.

(** ** Stored coordinates stay within [int] *)

Lemma coordinates_ok_constructed (BOARD_LENGTH : Z) (p : ChessPiece) :
  Constructed BOARD_LENGTH p -> coordinates_ok BOARD_LENGTH p.
Proof.
  intros H. inversion H as [|color row column movingUp].
  - split; left; reflexivity.
  - unfold ChessPiece_new, coordinates_ok, coordinate_ok.
    rewrite !Z.geb_leb.
    destruct (Z.leb_spec 0 row), (Z.ltb_spec row BOARD_LENGTH),
      (Z.leb_spec 0 column), (Z.ltb_spec column BOARD_LENGTH); simpl; lia.
Qed.

Lemma coordinates_ok_call (BOARD_LENGTH : Z) (op : Setter) (p : Pawn) :
  coordinates_ok BOARD_LENGTH (upcast p) ->
  coordinates_ok BOARD_LENGTH (upcast (call BOARD_LENGTH op p)).
Proof.
  unfold coordinates_ok, coordinate_ok.
  destruct op as [color|row|column|movingUp|]; simpl; try tauto.
  - unfold setColor. destruct (isAlphabetic color); simpl; tauto.
  - unfold setRow. rewrite Z.geb_leb.
    destruct (Z.leb_spec 0 row), (Z.ltb_spec row BOARD_LENGTH); simpl; lia.
  - unfold setColumn. rewrite Z.geb_leb.
    destruct (Z.leb_spec 0 column), (Z.ltb_spec column BOARD_LENGTH);
      simpl; lia.
Qed.

Lemma stored_coordinates_bounded
  (BOARD_LENGTH : Z) (p0 : Pawn) (ops : list Setter) :
  Constructed BOARD_LENGTH (upcast p0) ->
  Forall (fun p => coordinates_ok BOARD_LENGTH (upcast p))
         (p0 :: trace BOARD_LENGTH ops p0).
Proof.
  intros H. apply coordinates_ok_constructed in H.
  revert p0 H. induction ops as [|op ops IH]; intros p0 H; simpl.
  - constructor; [exact H | constructor].
  - constructor; [exact H|]. apply IH, coordinates_ok_call, H.
Qed.

(** The subtraction in [Rook::canCastle] stays within [int] as well. *)
Lemma column_difference_bounded (BOARD_LENGTH : Z) (a b : ChessPiece) :
  coordinates_ok BOARD_LENGTH a -> coordinates_ok BOARD_LENGTH b ->
  Z.abs (column_ a - column_ b) <= Z.max 0 BOARD_LENGTH.
Proof. unfold coordinates_ok, coordinate_ok. lia. Qed.

Lemma last_nonempty {A : Type} (l : list A) (a d d' : A) :
  last (a :: l) d = last (a :: l) d'.
Proof.
  revert a. induction l as [|b l IH]; intros a; [reflexivity|].
  change (last (b :: l) d = last (b :: l) d'). apply IH.
Qed.

(** [run] ends where [trace] ends. *)
Lemma run_last_trace (BOARD_LENGTH : Z) (ops : list Setter) :
  forall p : Pawn,
    run BOARD_LENGTH ops p = last (trace BOARD_LENGTH ops p) p.
Proof.
  unfold run. induction ops as [|op ops IH]; intros p; simpl; [reflexivity|].
  rewrite IH. destruct ops as [|op' ops']; [reflexivity|].
  apply last_nonempty.
Qed.

(** * Concrete instances, on the board of 8 rows that [Pawn.cpp] speaks of *)

(** C1 as stated fails: [setRow(3)] on a default-constructed pawn stores the
    row and leaves the column at -1. *)
Lemma setRow_on_default_breaks_I1 :
  Constructed 8 (upcast Pawn_default)
  /\ trace 8 [SetRow 3] Pawn_default
     = [mkPawn (mkChessPiece "BLACK" 3 (-1) false) false]
  /\ I1 (upcast (run 8 [SetRow 3] Pawn_default)) = false.
Proof. split; [constructor | split; reflexivity]. Qed.

Lemma I1_along_setter_calls_witness :
  Forall (fun p => I1 (upcast p) = true)
    (trace 8 [SetRow 3; SetColumn 9; SetColor "x1"; ToggleDoubleJump;
              SetMovingUp false]
       (Pawn_new 8 "white" 1 2 true false)).
Proof.
  apply (proj1 (proj2 (I1_along_setter_calls 8
                         (Pawn_new 8 "white" 1 2 true false) _
                         (by_arguments 8 "white" 1 2 true)))).
  reflexivity.
Defined.

Lemma canCastle_spec_witness :
  canCastle (Rook_new 8 "white" 3 4 true 3)
            (upcast (Rook_new 8 "WHITE" 3 5 false 0)) = true.
Proof.
  pose proof (canCastle_spec (Rook_new 8 "white" 3 4 true 3)
                (upcast (Rook_new 8 "WHITE" 3 5 false 0))) as H.
  unfold canCastle_call in H. destruct H as [H _]. apply H.
  repeat split; try discriminate; simpl; lia.
Defined.

Lemma canPromote_spec_witness :
  canPromote 8 (Pawn_new 8 "white" (-1) 0 true false) = false
  /\ canPromote 8 (Pawn_new 8 "white" 7 0 true false) = true.
Proof.
  split.
  - apply (proj2 (canPromote_spec 8 (Pawn_new 8 "white" (-1) 0 true false)
                    ltac:(lia))).
    reflexivity.
  - apply (proj1 (canPromote_spec 8 (Pawn_new 8 "white" 7 0 true false)
                    ltac:(lia))).
    left. split; reflexivity.
Defined.

Lemma setRow_setColumn_spec_witness :
  let p := ChessPiece_new 8 "white" 3 4 true in
  setRow 8 8 p = mkChessPiece "WHITE" (-1) (-1) true
  /\ setColumn 8 5 p = mkChessPiece "WHITE" 3 5 true.
Proof.
  split.
  - apply (proj2 (setRow_setColumn_spec 8
                    (ChessPiece_new 8 "white" 3 4 true) 8)).
    lia.
  - apply (proj1 (setRow_setColumn_spec 8
                    (ChessPiece_new 8 "white" 3 4 true) 5)).
    lia.
Defined.

Lemma setColor_spec_witness :
  setColor "abc" ChessPiece_default = (true, mkChessPiece "ABC" (-1) (-1) false)
  /\ setColor "a1b" ChessPiece_default = (false, ChessPiece_default).
Proof.
  split.
  - apply (proj1 (setColor_spec ChessPiece_default "abc")).
    intros c [<-|[<-|[<-|[]]]]; reflexivity.
  - apply (proj2 (setColor_spec ChessPiece_default "a1b")).
    intros H. specialize (H "1"%char (or_intror (or_introl eq_refl))).
    discriminate H.
Defined.

Lemma ChessPiece_new_position_witness :
  getRow (ChessPiece_new 8 "white" 3 9 true) = -1
  /\ getColumn (ChessPiece_new 8 "white" 3 9 true) = -1
  /\ getRow (ChessPiece_new 8 "white" 3 7 true) = 3
  /\ getColumn (ChessPiece_new 8 "white" 3 7 true) = 7.
Proof.
  pose proof (ChessPiece_new_position 8 "white" 3 9 true) as [_ [Hout _]].
  pose proof (ChessPiece_new_position 8 "white" 3 7 true) as [Hin _].
  destruct Hout as [Hr Hc]; [right; lia|].
  destruct Hin as [Hr' Hc']; [lia|].
  repeat split; assumption.
Defined.

Lemma getCastleMovesLeft_constructed_witness :
  getCastleMovesLeft (Rook_new 8 "white" 0 0 false (-5)) = 0.
Proof.
  apply (proj1 (proj2
           (getCastleMovesLeft_constructed 8 "white" 0 0 false (-5)))).
  lia.
Defined.

Lemma canCastle_self_witness :
  canCastle (Rook_new 8 "white" 3 4 true 3)
            (upcast (Rook_new 8 "white" 3 4 true 3)) = true.
Proof.
  apply (canCastle_self (Rook_new 8 "white" 3 4 true 3)).
  - discriminate.
  - discriminate.
  - reflexivity.
Defined.

Lemma display_spec_witness :
  exists line : string,
    display (mkChessPiece "BLACK" 2 4 true) ""
    = (mkChessPiece "BLACK" 2 4 true, (line ++ OStream.newline)%string)
    /\ line = "BLACK piece at (2,4) is moving UP"
    /\ occurs OStream.newline_char line = false.
Proof.
  destruct (display_spec (mkChessPiece "BLACK" 2 4 true) "")
    as (line & Hd & Hon & _ & Hnl).
  exists line. split; [exact Hd|]. split.
  - apply Hon. split; discriminate.
  - apply Hnl. reflexivity.
Defined.

(** * Further properties *)

(** ** Colours are upper-case letters *)

Lemma isupper_isalpha (c : ascii) :
  CType.isupper c = true -> CType.isalpha c = true.
Proof. unfold CType.isalpha. intros ->. reflexivity. Qed.

Lemma toupper_isupper (c : ascii) :
  CType.isalpha c = true -> CType.isupper (CType.toupper c) = true.
Proof.
  destruct c as [[|] [|] [|] [|] [|] [|] [|] [|]];
    intros H; try reflexivity; discriminate H.
Qed.

Lemma toupper_fixes_upper (c : ascii) :
  CType.isupper c = true -> CType.toupper c = c.
Proof.
  destruct c as [[|] [|] [|] [|] [|] [|] [|] [|]];
    intros H; try reflexivity; discriminate H.
Qed.

Lemma isalpha_toupper (c : ascii) :
  CType.isalpha (CType.toupper c) = CType.isalpha c.
Proof. destruct c as [[|] [|] [|] [|] [|] [|] [|] [|]]; reflexivity. Qed.

Lemma upper_case_toupper_each (s : string) :
  isAlphabetic s = true -> upper_case (toupper_each s).
Proof.
  unfold upper_case. induction s as [|a s IH]; simpl; [intros _ c []|].
  destruct (CType.isalpha a) eqn:Ha; simpl; [|discriminate].
  intros Hs c [<-|Hc]; [now apply toupper_isupper | now apply IH].
Qed.

Lemma upper_case_isAlphabetic (s : string) :
  upper_case s -> isAlphabetic s = true.
Proof.
  intros H. apply isAlphabetic_iff. intros c Hc.
  apply isupper_isalpha, H, Hc.
Qed.

Lemma upper_case_fixed (s : string) : upper_case s -> toupper_each s = s.
Proof.
  unfold upper_case. induction s as [|a s IH]; simpl; [reflexivity|].
  intros H. rewrite toupper_fixes_upper by (apply H; now left).
  rewrite IH; [reflexivity|]. intros c Hc. apply H. now right.
Qed.

Lemma isAlphabetic_toupper_each (s : string) :
  isAlphabetic (toupper_each s) = isAlphabetic s.
Proof.
  induction s as [|a s IH]; simpl; [reflexivity|].
  now rewrite isalpha_toupper, IH.
Qed.

Lemma upper_case_BLACK : upper_case "BLACK".
Proof. intros c [<-|[<-|[<-|[<-|[<-|[]]]]]]; reflexivity. Qed.

Lemma upper_case_constructed (BOARD_LENGTH : Z) (p : ChessPiece) :
  Constructed BOARD_LENGTH p -> upper_case (color_ p).
Proof.
  intros H. inversion H as [|color row column movingUp].
  - apply upper_case_BLACK.
  - unfold ChessPiece_new.
    destruct ((row >=? 0) && (row <? BOARD_LENGTH)
              && (column >=? 0) && (column <? BOARD_LENGTH)); simpl;
      (destruct (isAlphabetic color) eqn:E;
       [now apply upper_case_toupper_each | apply upper_case_BLACK]).
Qed.

Lemma upper_case_call (BOARD_LENGTH : Z) (op : Setter) (p : Pawn) :
  upper_case (color_ (upcast p)) ->
  upper_case (color_ (upcast (call BOARD_LENGTH op p))).
Proof.
  destruct op as [color|row|column|movingUp|]; simpl; try tauto.
  - unfold setColor. destruct (isAlphabetic color) eqn:E; simpl; [|tauto].
    intros _. now apply upper_case_toupper_each.
  - unfold setRow. destruct (_ && _); simpl; tauto.
  - unfold setColumn. destruct (_ && _); simpl; tauto.
Qed.

(** X1: the colour of a constructed piece consists of upper-case letters
    only, and it still does after every call of any sequence of setter
    calls. *)
Theorem color_upper_case_along_calls
  (BOARD_LENGTH : Z) (p0 : Pawn) (ops : list Setter) :
  Constructed BOARD_LENGTH (upcast p0) ->
  Forall
    (fun p =>
       forall c, In c (list_ascii_of_string (getColor (upcast p))) ->
                 CType.isupper c = true)
    (p0 :: trace BOARD_LENGTH ops p0).
Proof.
  intros H. apply upper_case_constructed in H.
  revert p0 H. induction ops as [|op ops IH]; intros p0 H; simpl.
  - constructor; [exact H | constructor].
  - constructor; [exact H|]. apply IH, upper_case_call, H.
Qed.

(** X2: the parameterized constructor stores the upper-cased colour when
    every character of its argument is alphabetic, and "BLACK" as soon as
    one character is not; the position arguments play no part in it. *)
Theorem ChessPiece_new_color
  (BOARD_LENGTH : Z) (color : string) (row column : Z) (movingUp : bool) :
  ((forall c, In c (list_ascii_of_string color) -> CType.isalpha c = true) ->
   getColor (ChessPiece_new BOARD_LENGTH color row column movingUp)
   = string_of_list_ascii (map CType.toupper (list_ascii_of_string color)))
  /\
  (~ (forall c, In c (list_ascii_of_string color) -> CType.isalpha c = true) ->
   getColor (ChessPiece_new BOARD_LENGTH color row column movingUp) = "BLACK").
Proof.
  unfold ChessPiece_new, getColor.
  destruct ((row >=? 0) && (row <? BOARD_LENGTH)
            && (column >=? 0) && (column <? BOARD_LENGTH)); simpl;
    (split; intros H;
     [apply isAlphabetic_iff in H; rewrite H; apply toupper_each_map
     | destruct (isAlphabetic color) eqn:E; [|reflexivity];
       exfalso; apply H, isAlphabetic_iff, E]).
Qed.

(** X3: writing back the colour just read succeeds and changes nothing, for
    every piece whose colour consists of upper-case letters (every
    constructed piece, by X1). *)
Theorem setColor_getColor (p : ChessPiece) :
  (forall c, In c (list_ascii_of_string (getColor p)) ->
             CType.isupper c = true) ->
  setColor (getColor p) p = (true, p).
Proof.
  intros H. unfold setColor, getColor in *.
  rewrite (upper_case_isAlphabetic _ H), (upper_case_fixed _ H).
  destruct p; reflexivity.
Qed.

(** X4: [setColor] does not see the case of its argument: two arguments
    with the same upper-casing have the same outcome, and repeating a call
    changes nothing more. *)
Theorem setColor_case_insensitive (p : ChessPiece) (s1 s2 : string) :
  toupper_each s1 = toupper_each s2 ->
  setColor s1 p = setColor s2 p
  /\ setColor s2 (snd (setColor s1 p)) = setColor s1 p.
Proof.
  intros E. unfold setColor.
  rewrite <- (isAlphabetic_toupper_each s1), E, isAlphabetic_toupper_each.
  destruct (isAlphabetic s2) eqn:E2; simpl; split; reflexivity.
Qed.

(** ** Moving a piece *)

(** Case analysis on whether an argument is a board index. *)
Ltac range_cases BOARD_LENGTH v :=
  rewrite ?(Z.geb_leb v 0);
  destruct (Z.leb_spec 0 v), (Z.ltb_spec v BOARD_LENGTH); simpl.

(** X5: [setRow] and [setColumn] commute exactly when their arguments are
    both board indices or both out of range.  With one of each, the
    out-of-range call takes the piece off the board if it comes last, and
    leaves it with one coordinate set if it comes first. *)
Theorem setRow_setColumn_commute
  (BOARD_LENGTH : Z) (row column : Z) (p : ChessPiece) :
  setRow BOARD_LENGTH row (setColumn BOARD_LENGTH column p)
  = setColumn BOARD_LENGTH column (setRow BOARD_LENGTH row p)
  <-> (0 <= row < BOARD_LENGTH <-> 0 <= column < BOARD_LENGTH).
Proof.
  unfold setRow, setColumn, set_row_, set_column_.
  range_cases BOARD_LENGTH row; range_cases BOARD_LENGTH column;
    (split; [intros E; try (split; intros; lia); injection E; lia
            | intros [E1 E2]; try reflexivity; exfalso; lia]).
Qed.

(** X6: writing back the coordinate just read changes nothing, for a piece
    whose coordinates are -1 or board indices and which satisfies I1. *)
Theorem setRow_getRow_setColumn_getColumn
  (BOARD_LENGTH : Z) (p : ChessPiece) :
  coordinates_ok BOARD_LENGTH p -> I1 p = true ->
  setRow BOARD_LENGTH (getRow p) p = p
  /\ setColumn BOARD_LENGTH (getColumn p) p = p.
Proof.
  unfold coordinates_ok, coordinate_ok, I1, getRow, getColumn.
  destruct p as [color row column movingUp]. simpl.
  unfold setRow, setColumn, set_row_, set_column_. simpl.
  intros [Hr Hc] H.
  destruct (Z.eqb_spec row (-1)), (Z.eqb_spec column (-1));
    try discriminate H;
    range_cases BOARD_LENGTH row; range_cases BOARD_LENGTH column;
    split; try reflexivity; try (f_equal; lia); exfalso; lia.
Qed.

(** X7: the parameterized constructor builds what default construction
    followed by [setColor], [setRow], [setColumn] and [setMovingUp] builds,
    except when the row argument is out of range and the column argument is
    a board index: then the setters leave the column set, the constructor
    does not. *)
Theorem ChessPiece_new_by_setters
  (BOARD_LENGTH : Z) (color : string) (row column : Z) (movingUp : bool) :
  ChessPiece_new BOARD_LENGTH color row column movingUp
  = built_by_setters BOARD_LENGTH color row column movingUp
  <-> (0 <= column < BOARD_LENGTH -> 0 <= row < BOARD_LENGTH).
Proof.
  unfold ChessPiece_new, built_by_setters, setMovingUp, setColumn, setRow,
    setColor, set_movingUp_, set_column_, set_row_, set_color_.
  destruct (isAlphabetic color); simpl;
    range_cases BOARD_LENGTH row; range_cases BOARD_LENGTH column;
    (split; [intros E; try (intros; lia); injection E; lia
            | intros E; try reflexivity; exfalso; lia]).
Qed.

(** X8: every coordinate a piece stores, at construction and after every
    call of any sequence of setter calls, is -1 or a board index. *)
Theorem coordinates_in_range_along_calls
  (BOARD_LENGTH : Z) (p0 : Pawn) (ops : list Setter) :
  Constructed BOARD_LENGTH (upcast p0) ->
  Forall
    (fun p =>
       (getRow (upcast p) = -1 \/ 0 <= getRow (upcast p) < BOARD_LENGTH)
       /\ (getColumn (upcast p) = -1
           \/ 0 <= getColumn (upcast p) < BOARD_LENGTH))
    (p0 :: trace BOARD_LENGTH ops p0).
Proof.
  intros H. exact (stored_coordinates_bounded BOARD_LENGTH p0 ops H).
Qed.

(** ** Castling, further *)

(** X9: between two rooks that both have castle moves left, [canCastle]
    gives the same answer whichever of the two is asked. *)
Theorem canCastle_symmetric (R1 R2 : Rook) :
  getCastleMovesLeft R1 > 0 -> getCastleMovesLeft R2 > 0 ->
  canCastle R1 (upcast R2) = canCastle R2 (upcast R1).
Proof.
  unfold getCastleMovesLeft. intros H1 H2.
  apply eq_true_iff_eq. rewrite !canCastle_true_iff.
  change (upcast (upcast R1)) with (upcast R1).
  change (upcast (upcast R2)) with (upcast R2).
  split; intros (_ & Hc & (Ha & Hb & Hd & He) & Hr & Hcol);
    repeat split; auto; lia.
Qed.

Lemma rook_call_moves (BOARD_LENGTH : Z) (op : BaseSetter) (r : Rook) :
  castle_moves_left_ (rook_call BOARD_LENGTH op r) = castle_moves_left_ r.
Proof. destruct op; reflexivity. Qed.

Lemma rook_run_moves (BOARD_LENGTH : Z) (ops : list BaseSetter) :
  forall r : Rook,
    castle_moves_left_ (rook_run BOARD_LENGTH ops r) = castle_moves_left_ r.
Proof.
  unfold rook_run. induction ops as [|op ops IH]; intros r; simpl;
    [reflexivity|].
  rewrite IH. apply rook_call_moves.
Qed.

(** X10: no setter call changes the castle moves a rook has left: after any
    sequence of calls a rook constructed with argument [n] has [max(0, n)],
    which is never negative, and a default-constructed one has 3.  So a
    rook constructed with [n <= 0] can never castle, wherever it is moved
    and whatever the other piece. *)
Theorem castle_moves_kept
  (BOARD_LENGTH : Z) (color : string) (row col : Z) (movingUp : bool)
  (n : Z) (ops : list BaseSetter) :
  let r := rook_run BOARD_LENGTH ops
             (Rook_new BOARD_LENGTH color row col movingUp n) in
  getCastleMovesLeft r = Z.max 0 n
  /\ 0 <= getCastleMovesLeft r
  /\ getCastleMovesLeft (rook_run BOARD_LENGTH ops Rook_default) = 3
  /\ (n <= 0 -> forall P : ChessPiece, canCastle r P = false).
Proof.
  cbv zeta. unfold getCastleMovesLeft. rewrite !rook_run_moves. simpl.
  repeat split; try lia.
  intros Hn P. unfold canCastle. rewrite rook_run_moves. simpl.
  destruct (Z.leb_spec (Z.max 0 n) 0); [reflexivity | lia].
Qed.

(** X11: an out-of-range [setRow] or [setColumn], on the rook or on the
    other piece, makes [canCastle] false. *)
Theorem canCastle_off_board
  (BOARD_LENGTH : Z) (R : Rook) (P : ChessPiece) (v : Z) :
  ~ 0 <= v < BOARD_LENGTH ->
  canCastle (inherited (setRow BOARD_LENGTH v) R) P = false
  /\ canCastle (inherited (setColumn BOARD_LENGTH v) R) P = false
  /\ canCastle R (setRow BOARD_LENGTH v P) = false
  /\ canCastle R (setColumn BOARD_LENGTH v P) = false.
Proof.
  intros Hv.
  repeat split; apply not_true_is_false; rewrite canCastle_true_iff;
    simpl; unfold setRow, setColumn; rewrite (in_range_false _ _ Hv); simpl;
    tauto.
Qed.

(** ** Pawns, further *)

Lemma call_double_jumpable (BOARD_LENGTH : Z) (op : Setter) (p : Pawn) :
  double_jumpable_ (call BOARD_LENGTH op p)
  = match op with
    | ToggleDoubleJump => negb (double_jumpable_ p)
    | _ => double_jumpable_ p
    end.
Proof. destruct op; reflexivity. Qed.

(** X12: after a sequence of setter calls a pawn can double-jump exactly
    when its flag at the start and the parity of the number of
    [toggleDoubleJump] calls say so: the inherited setters leave the flag
    alone.  For a pawn built by the parameterized constructor the flag at
    the start is the constructor's last argument. *)
Theorem canDoubleJump_after_calls
  (BOARD_LENGTH : Z) (ops : list Setter) (p : Pawn) :
  canDoubleJump (run BOARD_LENGTH ops p)
  = xorb (canDoubleJump p) (Nat.odd (toggles ops))
  /\ (forall color row column movingUp doubleJumpable,
        canDoubleJump
          (run BOARD_LENGTH ops
             (Pawn_new BOARD_LENGTH color row column movingUp doubleJumpable))
        = xorb doubleJumpable (Nat.odd (toggles ops))).
Proof.
  assert (H : forall q : Pawn,
             canDoubleJump (run BOARD_LENGTH ops q)
             = xorb (canDoubleJump q) (Nat.odd (toggles ops))).
  { unfold canDoubleJump, run.
    induction ops as [|op ops IH]; intros q; simpl.
    - now rewrite xorb_false_r.
    - rewrite IH, call_double_jumpable.
      destruct op; try reflexivity.
      rewrite Nat.odd_succ, <- Nat.negb_odd.
      destruct (double_jumpable_ q), (Nat.odd (toggles ops)); reflexivity. }
  split; [apply H | intros; apply H].
Qed.

(** [toggleDoubleJump] touches nothing but the flag, so it does not
    change whether the pawn can promote, and two calls in a row restore the
    pawn. *)
Lemma toggleDoubleJump_twice (BOARD_LENGTH : Z) (p : Pawn) :
  toggleDoubleJump (toggleDoubleJump p) = p
  /\ upcast (toggleDoubleJump p) = upcast p
  /\ canPromote BOARD_LENGTH (toggleDoubleJump p) = canPromote BOARD_LENGTH p.
Proof.
  destruct p as [b d]. unfold toggleDoubleJump; simpl.
  rewrite negb_involutive. repeat split.
Qed.

Lemma canPromote_sentinel_row (BOARD_LENGTH : Z) (p : Pawn) :
  0 < BOARD_LENGTH -> row_ (upcast p) = -1 ->
  canPromote BOARD_LENGTH p = false.
Proof.
  intros HBL Hr. unfold canPromote, isMovingUp, getRow. rewrite Hr.
  destruct (Z.eqb_spec (-1) (BOARD_LENGTH - 1)); [lia|].
  now rewrite !andb_false_r.
Qed.

(** X13: on a board of positive length, an out-of-range [setRow] or
    [setColumn] leaves a pawn that cannot promote. *)
Theorem canPromote_off_board (BOARD_LENGTH : Z) (p : Pawn) (v : Z) :
  0 < BOARD_LENGTH -> ~ 0 <= v < BOARD_LENGTH ->
  canPromote BOARD_LENGTH (inherited (setRow BOARD_LENGTH v) p) = false
  /\ canPromote BOARD_LENGTH (inherited (setColumn BOARD_LENGTH v) p) = false.
Proof.
  intros HBL Hv.
  split; apply canPromote_sentinel_row; try assumption; simpl;
    unfold setRow, setColumn; rewrite (in_range_false _ _ Hv); reflexivity.
Qed.

(** X14: on a board of more than one row, turning a pawn that can promote
    round, with [setMovingUp], gives a pawn that cannot. *)
Theorem canPromote_turned (BOARD_LENGTH : Z) (p : Pawn) :
  1 < BOARD_LENGTH ->
  canPromote BOARD_LENGTH p = true ->
  canPromote BOARD_LENGTH
    (inherited (setMovingUp (negb (isMovingUp (upcast p)))) p) = false.
Proof.
  intros HBL. unfold canPromote, isMovingUp, getRow; simpl.
  destruct (movingUp_ (pawn_base p)); simpl;
    destruct (Z.eqb_spec (row_ (pawn_base p)) (BOARD_LENGTH - 1)),
      (Z.eqb_spec (row_ (pawn_base p)) 0); simpl;
    intros H; try reflexivity; try discriminate H; lia.
Qed.

(** ** Display, further *)

Lemma upper_case_no_newline (s : string) :
  upper_case s -> occurs OStream.newline_char s = false.
Proof.
  unfold upper_case. induction s as [|a s IH]; simpl; [reflexivity|].
  intros H. rewrite IH by (intros c Hc; apply H; now right).
  rewrite orb_false_r. apply not_true_is_false. intros E.
  apply Ascii.eqb_eq in E. specialize (H a (or_introl eq_refl)).
  rewrite E in H. discriminate H.
Qed.

Lemma upper_case_run (BOARD_LENGTH : Z) (ops : list Setter) :
  forall p : Pawn,
    upper_case (color_ (upcast p)) ->
    upper_case (color_ (upcast (run BOARD_LENGTH ops p))).
Proof.
  unfold run. induction ops as [|op ops IH]; intros p H; simpl;
    [exact H|].
  apply IH, upper_case_call, H.
Qed.

(** What [display] appends, for a colour without end-of-line. *)
Lemma display_appends_line (p : ChessPiece) (cout : OStream.ostream) :
  occurs OStream.newline_char (color_ p) = false ->
  exists line : string,
    snd (display p cout) = (cout ++ line ++ OStream.newline)%string
    /\ occurs OStream.newline_char line = false.
Proof.
  intros Hn.
  unfold display, OStream.endl, OStream.put_string, OStream.put_int.
  destruct (negb (row_ p =? -1) && negb (column_ p =? -1)); simpl.
  - exists (color_ p ++ " piece at (" ++ OStream.decimal (row_ p) ++ ","
            ++ OStream.decimal (column_ p) ++ ") is moving "
            ++ (if movingUp_ p then "UP" else "DOWN"))%string.
    split; [now rewrite !append_assoc|].
    rewrite !occurs_append, Hn, !decimal_no_newline.
    destruct (movingUp_ p); reflexivity.
  - exists (color_ p ++ " piece is not on the board")%string.
    split; [now rewrite !append_assoc|].
    rewrite occurs_append, Hn. reflexivity.
Qed.

(** X15: for a constructed piece, after any sequence of setter calls,
    [display] appends to the output a text with exactly one end-of-line, its
    last character, and leaves the piece as it is. *)
Theorem display_one_line
  (BOARD_LENGTH : Z) (p0 : Pawn) (ops : list Setter)
  (cout : OStream.ostream) :
  Constructed BOARD_LENGTH (upcast p0) ->
  exists line : string,
    display (upcast (run BOARD_LENGTH ops p0)) cout
    = (upcast (run BOARD_LENGTH ops p0),
       (cout ++ line ++ OStream.newline)%string)
    /\ occurs OStream.newline_char line = false.
Proof.
  intros H. apply upper_case_constructed in H.
  apply (upper_case_run BOARD_LENGTH ops), upper_case_no_newline in H.
  destruct (display_appends_line _ cout H) as (line & Hd & Hl).
  exists line. split; [|exact Hl].
  rewrite <- Hd. unfold display. destruct (_ && _); reflexivity.
Qed.

(** * Concrete instances of the further properties *)

Lemma color_upper_case_along_calls_witness :
  Forall
    (fun p =>
       forall c, In c (list_ascii_of_string (getColor (upcast p))) ->
                 CType.isupper c = true)
    (Pawn_new 8 "white" 1 2 true false
     :: trace 8 [SetColor "red"; SetColor "x1"; SetRow 9]
          (Pawn_new 8 "white" 1 2 true false)).
Proof.
  apply (color_upper_case_along_calls 8 (Pawn_new 8 "white" 1 2 true false)
           [SetColor "red"; SetColor "x1"; SetRow 9]
           (by_arguments 8 "white" 1 2 true)).
Defined.

Lemma ChessPiece_new_color_witness :
  getColor (ChessPiece_new 8 "a1b" 0 0 true) = "BLACK"
  /\ getColor (ChessPiece_new 8 "abc" 0 0 true) = "ABC".
Proof.
  split.
  - apply (proj2 (ChessPiece_new_color 8 "a1b" 0 0 true)).
    intros H. specialize (H "1"%char (or_intror (or_introl eq_refl))).
    discriminate H.
  - apply (proj1 (ChessPiece_new_color 8 "abc" 0 0 true)).
    intros c [<-|[<-|[<-|[]]]]; reflexivity.
Defined.

Lemma setColor_getColor_witness :
  setColor "WHITE" (mkChessPiece "WHITE" 3 4 true)
  = (true, mkChessPiece "WHITE" 3 4 true).
Proof.
  apply (setColor_getColor (mkChessPiece "WHITE" 3 4 true)).
  intros c [<-|[<-|[<-|[<-|[<-|[]]]]]]; reflexivity.
Defined.

Lemma setColor_case_insensitive_witness :
  setColor "white" ChessPiece_default = setColor "WhItE" ChessPiece_default
  /\ setColor "WhItE" (snd (setColor "white" ChessPiece_default))
     = setColor "white" ChessPiece_default.
Proof.
  apply (setColor_case_insensitive ChessPiece_default "white" "WhItE").
  reflexivity.
Defined.

Lemma setRow_setColumn_commute_witness :
  setRow 8 3 (setColumn 8 4 ChessPiece_default)
  = setColumn 8 4 (setRow 8 3 ChessPiece_default)
  /\ setRow 8 8 (setColumn 8 4 ChessPiece_default)
     <> setColumn 8 4 (setRow 8 8 ChessPiece_default).
Proof.
  split.
  - apply (proj2 (setRow_setColumn_commute 8 3 4 ChessPiece_default)).
    split; intros _; lia.
  - intros E.
    apply (proj1 (setRow_setColumn_commute 8 8 4 ChessPiece_default)) in E.
    lia.
Defined.

Lemma setRow_getRow_setColumn_getColumn_witness :
  setRow 8 3 (ChessPiece_new 8 "white" 3 4 true)
  = ChessPiece_new 8 "white" 3 4 true
  /\ setColumn 8 4 (ChessPiece_new 8 "white" 3 4 true)
     = ChessPiece_new 8 "white" 3 4 true.
Proof.
  apply (setRow_getRow_setColumn_getColumn 8
           (ChessPiece_new 8 "white" 3 4 true)).
  - split; right; simpl; lia.
  - reflexivity.
Defined.

Lemma ChessPiece_new_by_setters_witness :
  ChessPiece_new 8 "white" 3 4 true = built_by_setters 8 "white" 3 4 true
  /\ ChessPiece_new 8 "white" 8 4 true <> built_by_setters 8 "white" 8 4 true.
Proof.
  split.
  - apply (proj2 (ChessPiece_new_by_setters 8 "white" 3 4 true)).
    intros _. lia.
  - intros E.
    apply (proj1 (ChessPiece_new_by_setters 8 "white" 8 4 true)) in E; lia.
Defined.

Lemma coordinates_in_range_along_calls_witness :
  Forall
    (fun p =>
       (getRow (upcast p) = -1 \/ 0 <= getRow (upcast p) < 8)
       /\ (getColumn (upcast p) = -1 \/ 0 <= getColumn (upcast p) < 8))
    (Pawn_default :: trace 8 [SetRow 3; SetColumn 8; SetColumn 2] Pawn_default).
Proof.
  apply (coordinates_in_range_along_calls 8 Pawn_default
           [SetRow 3; SetColumn 8; SetColumn 2] (by_default 8)).
Defined.

Lemma canCastle_symmetric_witness :
  canCastle (Rook_new 8 "white" 3 4 true 3)
            (upcast (Rook_new 8 "WHITE" 3 5 false 1))
  = canCastle (Rook_new 8 "WHITE" 3 5 false 1)
              (upcast (Rook_new 8 "white" 3 4 true 3)).
Proof.
  apply (canCastle_symmetric (Rook_new 8 "white" 3 4 true 3)
           (Rook_new 8 "WHITE" 3 5 false 1)); reflexivity.
Defined.

Lemma castle_moves_kept_witness :
  canCastle
    (rook_run 8 [BSetRow 3; BSetColumn 4] (Rook_new 8 "white" 0 0 true (-5)))
    (ChessPiece_new 8 "white" 3 5 true) = false.
Proof.
  pose proof (castle_moves_kept 8 "white" 0 0 true (-5)
                [BSetRow 3; BSetColumn 4]) as H.
  cbv zeta in H. destruct H as (_ & _ & _ & H).
  apply H. lia.
Defined.

Lemma canCastle_off_board_witness :
  canCastle (Rook_new 8 "white" 3 4 true 3)
            (setColumn 8 8 (ChessPiece_new 8 "white" 3 5 true)) = false.
Proof.
  apply (canCastle_off_board 8 (Rook_new 8 "white" 3 4 true 3)
           (ChessPiece_new 8 "white" 3 5 true) 8).
  lia.
Defined.

Lemma canPromote_off_board_witness :
  canPromote 8 (inherited (setColumn 8 (-1))
                  (Pawn_new 8 "white" 7 0 true false)) = false.
Proof.
  apply (canPromote_off_board 8 (Pawn_new 8 "white" 7 0 true false) (-1));
    lia.
Defined.

Lemma canPromote_turned_witness :
  canPromote 8 (inherited (setMovingUp false)
                  (Pawn_new 8 "white" 7 0 true false)) = false.
Proof.
  apply (canPromote_turned 8 (Pawn_new 8 "white" 7 0 true false));
    [lia | reflexivity].
Defined.

Lemma display_one_line_witness :
  exists line : string,
    display (upcast (run 8 [SetRow 3] Pawn_default)) ""
    = (upcast (run 8 [SetRow 3] Pawn_default),
       (line ++ OStream.newline)%string)
    /\ occurs OStream.newline_char line = false.
Proof.
  apply (display_one_line 8 Pawn_default [SetRow 3] "" (by_default 8)).
Defined.
